(** * compressionstdlib: compression middleware over compress/gzip and compress/zlib

    A shallow embedding of [compression.go].  The package is a thin layer:
    a configuration record ([Middleware]), functional options ([WithLevel]),
    a constructor ([New]), two dispatching factories ([Writer], [Reader]) and
    three adapter types that forward to the codec handle they embed.

    The codecs themselves (Go's [compress/gzip] and [compress/zlib]) are not
    part of the package.  They enter the development as values of the record
    [Codec]; what the package relies on is stated as contracts on such a
    value ([AcceptsLevels], [RoundTrips]), and a small executable codec
    ([Stored.codec]) shows that the contracts can be met. *)

From Stdlib Require Import ZArith List String Ascii Bool Lia.
From Stdlib Require Import Init.Byte.
Import ListNotations.

Local Open Scope Z_scope.

Set Implicit Arguments.

(** ** The Go values the package manipulates *)

(** [[]byte], and the contents of a [bytes.Buffer] or [bytes.Reader]. *)
Definition Buffer : Type := list byte.

(** [len(p)] as a Go [int]. *)
Definition len (p : Buffer) : Z := Z.of_nat (List.length p).

(** Go's [error] values.  [errorString] is what [errors.New] and
    [fmt.Errorf] build; [withMessage] is what [github.com/pkg/errors.Wrap]
    builds around a cause.  A nil [error] is [None : option error]. *)
Inductive error : Type :=
| errorString (s : string)
| withMessage (cause : error) (msg : string).

(** [err.Error()]. *)
Fixpoint Error (e : error) : string :=
  match e with
  | errorString s => s
  | withMessage cause msg => (msg ++ ": " ++ Error cause)%string
  end.

(** [errors.Cause(err)]: the innermost error of a chain of wraps. *)
Fixpoint Cause (e : error) : error :=
  match e with
  | errorString _ => e
  | withMessage cause _ => Cause cause
  end.

(** [errors.Wrap(err, message)]: nil stays nil, anything else is annotated. *)
Definition errors_Wrap (err : option error) (message : string) : option error :=
  match err with
  | None => None
  | Some e => Some (withMessage e message)
  end.

Fixpoint error_eqb (a b : error) : bool :=
  match a, b with
  | errorString s, errorString t => String.eqb s t
  | withMessage c m, withMessage d n => error_eqb c d && String.eqb m n
  | _, _ => false
  end.

(** [io.EOF]. *)
Definition EOF : error := errorString "EOF"%string.

(** A call either returns or panics with a message. *)
Inductive outcome (A : Type) : Type :=
| Returned (a : A)
| Panicked (msg : string).
Arguments Panicked {A} msg.

(** ** The [io] interfaces *)

(** [io.Writer]: [Write(p) (n int, err error)], threading the receiver. *)
Class io_Writer (T : Type) := Write : T -> Buffer -> T * (Z * option error).

(** [io.Closer]: [Close() error]. *)
Class io_Closer (T : Type) := Close : T -> T * option error.

(** [io.Reader]: [Read(p) (n int, err error)].  Only [len(p)] of the
    destination matters; the bytes stored in [p[:n]] are returned. *)
Class io_Reader (T : Type) := Read : T -> nat -> T * (Buffer * option error).

(** A sequence of [Write] calls on one writer, with every call's result. *)
Fixpoint write_seq {T} `{io_Writer T} (w : T) (chunks : list Buffer)
  : T * list (Z * option error) :=
  match chunks with
  | [] => (w, [])
  | p :: rest =>
      let '(w1, res) := Write w p in
      let '(w2, ress) := write_seq w1 rest in
      (w2, res :: ress)
  end.

(** A sequence of [Read] calls with the given destination sizes. *)
Fixpoint read_seq {T} `{io_Reader T} (r : T) (sizes : list nat)
  : T * list (Buffer * option error) :=
  match sizes with
  | [] => (r, [])
  | n :: rest =>
      let '(r1, res) := Read r n in
      let '(r2, ress) := read_seq r1 rest in
      (r2, res :: ress)
  end.

(** The result every chunk's [Write] has when nothing goes wrong. *)
Definition all_written (chunks : list Buffer) : list (Z * option error) :=
  map (fun p => (len p, None)) chunks.

(** The destination size [io.ReadAll] starts with. *)
Definition readAllChunk : nat := 512.

(** [io.ReadAll]: read until an error; [io.EOF] is reported as nil.  Go
    grows its buffer as it goes, so the room offered to [Read] varies from
    call to call; here every call is offered [readAllChunk] bytes.  The
    loop is bounded by [fuel]; [None] means the bound was reached. *)
Fixpoint ReadAll_from {T} `{io_Reader T} (fuel : nat) (r : T) (b : Buffer)
  : option (Buffer * option error) :=
  match fuel with
  | O => None
  | S fuel' =>
      let '(r', (data, err)) := Read r readAllChunk in
      let b' := b ++ data in
      match err with
      | Some e => Some (b', if error_eqb e EOF then None else Some e)
      | None => ReadAll_from fuel' r' b'
      end
  end.

Definition ReadAll {T} `{io_Reader T} (fuel : nat) (r : T) :=
  ReadAll_from fuel r [].

(** ** The codec packages, as the package sees them *)

(** [flate.HuffmanOnly] and [flate.BestCompression], the bounds both
    [gzip.NewWriterLevel] and [zlib.NewWriterLevel] check. *)
Definition HuffmanOnly : Z := -2.
Definition BestCompression : Z := 9.

(** One codec package ([compress/gzip] or [compress/zlib]) over sinks of
    type [Sink] and sources of type [Source].  A [CWriter] is the package's
    [*Writer] together with the sink it was given; [underlying] exposes
    that sink for observation only. *)
Record Codec (Sink Source : Type) : Type := {
  CWriter : Type;
  CReader : Type;
  NewWriterLevel : Sink -> Z -> CWriter + error;
  cw_Write : CWriter -> Buffer -> CWriter * (Z * option error);
  cw_Close : CWriter -> CWriter * option error;
  underlying : CWriter -> Sink;
  NewReader : Source -> CReader + error;
  cr_Read : CReader -> nat -> CReader * (Buffer * option error);
  cr_Close : CReader -> CReader * option error
}.

#[export] Instance CWriter_Writer {Sink Source} (c : Codec Sink Source)
  : io_Writer (CWriter c) := cw_Write c.
#[export] Instance CWriter_Closer {Sink Source} (c : Codec Sink Source)
  : io_Closer (CWriter c) := cw_Close c.
#[export] Instance CReader_Reader {Sink Source} (c : Codec Sink Source)
  : io_Reader (CReader c) := cr_Read c.
#[export] Instance CReader_Closer {Sink Source} (c : Codec Sink Source)
  : io_Closer (CReader c) := cr_Close c.

(** ** compression.go *)

(** [type Algorithm int] with [Gzip = iota] and [Zlib]. *)
Definition Algorithm : Type := Z.
Definition Gzip : Algorithm := 0.
Definition Zlib : Algorithm := 1.

(** [type Middleware struct { algorithm Algorithm; level int }]. *)
Record Middleware : Type := { algorithm : Algorithm; level : Z }.

(** [type Option] is a function on a pointer to [Middleware]: the mutation, as a state transformer. *)
Definition Option : Type := Middleware -> Middleware.

Definition WithLevel (lvl : Z) : Option :=
  fun m =>
    if (1 <=? lvl) && (lvl <=? 9)
    then {| algorithm := algorithm m; level := lvl |}
    else m.

Definition New (a : Algorithm) (opts : list Option) : Middleware :=
  fold_left (fun m opt => opt m) opts {| algorithm := a; level := 6 |}.

Section Adapters.
Context {Sink Source : Type}.
Variables gzip zlib : Codec Sink Source.

(** [type gzipWriteCloser struct { *gzip.Writer }]. *)
Record gzipWriteCloser : Type := { gzip_Writer : CWriter gzip }.

Definition gzipWriteCloser_Write (w : gzipWriteCloser) (p : Buffer)
  : gzipWriteCloser * (Z * option error) :=
  let '(cw, res) := Write (gzip_Writer w) p in
  ({| gzip_Writer := cw |}, res).

Definition gzipWriteCloser_Close (w : gzipWriteCloser)
  : gzipWriteCloser * option error :=
  let '(cw, err) := Close (gzip_Writer w) in
  ({| gzip_Writer := cw |},
   match err with
   | Some _ => errors_Wrap err "failed to close gzip writer"%string
   | None => None
   end).

(** [type zlibWriteCloser struct { *zlib.Writer }]. *)
Record zlibWriteCloser : Type := { zlib_Writer : CWriter zlib }.

Definition zlibWriteCloser_Write (w : zlibWriteCloser) (p : Buffer)
  : zlibWriteCloser * (Z * option error) :=
  let '(cw, res) := Write (zlib_Writer w) p in
  ({| zlib_Writer := cw |}, res).

Definition zlibWriteCloser_Close (w : zlibWriteCloser)
  : zlibWriteCloser * option error :=
  let '(cw, err) := Close (zlib_Writer w) in
  ({| zlib_Writer := cw |},
   match err with
   | Some _ => errors_Wrap err "failed to close zlib writer"%string
   | None => None
   end).

(** [type zlibReadCloser struct { io.ReadCloser }]. *)
Record zlibReadCloser : Type := { ReadCloser : CReader zlib }.

Definition zlibReadCloser_Read (r : zlibReadCloser) (n : nat)
  : zlibReadCloser * (Buffer * option error) :=
  let '(cr, res) := Read (ReadCloser r) n in
  ({| ReadCloser := cr |}, res).

Definition zlibReadCloser_Close (r : zlibReadCloser)
  : zlibReadCloser * option error :=
  let '(cr, err) := Close (ReadCloser r) in
  ({| ReadCloser := cr |}, err).

(** The [io.Writer] that [Writer] returns: one of the two adapters. *)
Inductive WriterAdapter : Type :=
| OfGzipWriteCloser (w : gzipWriteCloser)
| OfZlibWriteCloser (w : zlibWriteCloser).

(** The [io.Reader] that [Reader] returns: the [*gzip.Reader] itself, or
    the adapter around zlib's reader. *)
Inductive ReaderAdapter : Type :=
| OfGzipReader (r : CReader gzip)
| OfZlibReadCloser (r : zlibReadCloser).

Definition Writer (m : Middleware) (w : Sink) : outcome WriterAdapter :=
  if algorithm m =? Gzip then
    match NewWriterLevel gzip w (level m) with
    | inr err => Panicked ("failed to create gzip writer: " ++ Error err)%string
    | inl gzipWriter =>
        Returned (OfGzipWriteCloser {| gzip_Writer := gzipWriter |})
    end
  else if algorithm m =? Zlib then
    match NewWriterLevel zlib w (level m) with
    | inr err => Panicked ("failed to create zlib writer: " ++ Error err)%string
    | inl zlibWriter =>
        Returned (OfZlibWriteCloser {| zlib_Writer := zlibWriter |})
    end
  else Panicked "unsupported compression algorithm"%string.

Definition Reader (m : Middleware) (r : Source) : outcome ReaderAdapter :=
  if algorithm m =? Gzip then
    match NewReader gzip r with
    | inr err => Panicked ("failed to create gzip reader: " ++ Error err)%string
    | inl gzipReader => Returned (OfGzipReader gzipReader)
    end
  else if algorithm m =? Zlib then
    match NewReader zlib r with
    | inr err => Panicked ("failed to create zlib reader: " ++ Error err)%string
    | inl zlibReader =>
        Returned (OfZlibReadCloser {| ReadCloser := zlibReader |})
    end
  else Panicked "unsupported compression algorithm"%string.

(** Method dispatch on the dynamic type of the returned interface value. *)
Definition WriterAdapter_Write (a : WriterAdapter) (p : Buffer)
  : WriterAdapter * (Z * option error) :=
  match a with
  | OfGzipWriteCloser w =>
      let '(w', res) := gzipWriteCloser_Write w p in (OfGzipWriteCloser w', res)
  | OfZlibWriteCloser w =>
      let '(w', res) := zlibWriteCloser_Write w p in (OfZlibWriteCloser w', res)
  end.

Definition WriterAdapter_Close (a : WriterAdapter)
  : WriterAdapter * option error :=
  match a with
  | OfGzipWriteCloser w =>
      let '(w', err) := gzipWriteCloser_Close w in (OfGzipWriteCloser w', err)
  | OfZlibWriteCloser w =>
      let '(w', err) := zlibWriteCloser_Close w in (OfZlibWriteCloser w', err)
  end.

Definition ReaderAdapter_Read (a : ReaderAdapter) (n : nat)
  : ReaderAdapter * (Buffer * option error) :=
  match a with
  | OfGzipReader r =>
      let '(r', res) := Read r n in (OfGzipReader r', res)
  | OfZlibReadCloser r =>
      let '(r', res) := zlibReadCloser_Read r n in (OfZlibReadCloser r', res)
  end.

Definition ReaderAdapter_Close (a : ReaderAdapter)
  : ReaderAdapter * option error :=
  match a with
  | OfGzipReader r =>
      let '(r', err) := Close r in (OfGzipReader r', err)
  | OfZlibReadCloser r =>
      let '(r', err) := zlibReadCloser_Close r in (OfZlibReadCloser r', err)
  end.

(** The sink behind an adapter, for observation: the adapter holds no
    reference to it other than through its codec writer. *)
Definition sink_of (a : WriterAdapter) : Sink :=
  match a with
  | OfGzipWriteCloser w => underlying gzip (gzip_Writer w)
  | OfZlibWriteCloser w => underlying zlib (zlib_Writer w)
  end.

End Adapters.

Arguments OfGzipWriteCloser {Sink Source gzip zlib} w.
Arguments OfZlibWriteCloser {Sink Source gzip zlib} w.
Arguments OfGzipReader {Sink Source gzip zlib} r.
Arguments OfZlibReadCloser {Sink Source gzip zlib} r.

#[export] Instance WriterAdapter_Writer {Sink Source} (gz zl : Codec Sink Source)
  : io_Writer (WriterAdapter gz zl) := @WriterAdapter_Write _ _ gz zl.
#[export] Instance WriterAdapter_Closer {Sink Source} (gz zl : Codec Sink Source)
  : io_Closer (WriterAdapter gz zl) := @WriterAdapter_Close _ _ gz zl.
#[export] Instance ReaderAdapter_Reader {Sink Source} (gz zl : Codec Sink Source)
  : io_Reader (ReaderAdapter gz zl) := @ReaderAdapter_Read _ _ gz zl.
#[export] Instance ReaderAdapter_Closer {Sink Source} (gz zl : Codec Sink Source)
  : io_Closer (ReaderAdapter gz zl) := @ReaderAdapter_Close _ _ gz zl.

(** ** What the package relies on from a codec *)

(** [NewWriterLevel] of both packages returns a nil error when the level is
    between [HuffmanOnly] and [BestCompression]. *)
Definition AcceptsLevels {Sink Source} (c : Codec Sink Source) : Prop :=
  forall (w : Sink) (lvl : Z),
    HuffmanOnly <= lvl <= BestCompression ->
    exists cw, NewWriterLevel c w lvl = inl cw.

(** The sink after the given writes and a [Close]. *)
Definition finished {T} `{io_Writer T} `{io_Closer T} (w : T)
  (chunks : list Buffer) : T :=
  fst (Close (fst (write_seq w chunks))).

(** Over in-memory buffers, what a codec writes to an empty sink reads back:
    every [Write] takes its whole chunk, [Close] succeeds, the reader opens
    on the bytes produced and [io.ReadAll] of it is the data written. *)
Definition RoundTrips (c : Codec Buffer Buffer) : Prop :=
  forall (lvl : Z) (cw : CWriter c) (chunks : list Buffer),
    NewWriterLevel c [] lvl = inl cw ->
    snd (write_seq cw chunks) = all_written chunks /\
    snd (Close (fst (write_seq cw chunks))) = None /\
    exists cr,
      NewReader c (underlying c (finished cw chunks)) = inl cr /\
      exists fuel, ReadAll fuel cr = Some (List.concat chunks, None).

(** ** A small codec that meets the contracts

    Two magic bytes, then every data byte behind the tag [x01], then the end
    tag [x00].  The header is written lazily, by the first [Write] or by
    [Close], and checked eagerly by [newReader]; a tag other than [x00] or
    [x01] is reported by the [Read] that meets it. *)
Module Stored.

Record writer : Type := { out : Buffer; wroteHeader : bool; closed : bool }.
Record reader : Type := { rest : Buffer }.

Definition ErrLevel : error := errorString "invalid compression level"%string.
Definition ErrHeader : error := errorString "invalid header"%string.
Definition ErrCorrupt : error := errorString "corrupt input"%string.
Definition ErrUnexpectedEOF : error := errorString "unexpected EOF"%string.
Definition ErrClosed : error := errorString "write to closed writer"%string.

Definition encode (p : Buffer) : Buffer := flat_map (fun b => [x01; b]) p.
Definition endMarker : Buffer := [x00].

Fixpoint decode (n : nat) (src : Buffer) : Buffer * (Buffer * option error) :=
  match n with
  | O => (src, ([], None))
  | S n' =>
      match src with
      | [] => (src, ([], Some ErrUnexpectedEOF))
      | t :: tl =>
          if Byte.eqb t x01 then
            match tl with
            | [] => (src, ([], Some ErrUnexpectedEOF))
            | b :: tl' =>
                let '(src', (bs, e)) := decode n' tl' in (src', (b :: bs, e))
            end
          else if Byte.eqb t x00 then (src, ([], Some EOF))
          else (src, ([], Some ErrCorrupt))
      end
  end.

Section WithMagic.
Variables m1 m2 : byte.

Definition newWriterLevel (w : Buffer) (lvl : Z) : writer + error :=
  if (lvl <? HuffmanOnly) || (BestCompression <? lvl) then inr ErrLevel
  else inl {| out := w; wroteHeader := false; closed := false |}.

Definition withHeader (w : writer) : Buffer :=
  if wroteHeader w then out w else out w ++ [m1; m2].

Definition write (w : writer) (p : Buffer) : writer * (Z * option error) :=
  if closed w then (w, (0, Some ErrClosed))
  else ({| out := withHeader w ++ encode p;
           wroteHeader := true; closed := false |}, (len p, None)).

Definition close (w : writer) : writer * option error :=
  if closed w then (w, None)
  else ({| out := withHeader w ++ endMarker;
           wroteHeader := true; closed := true |}, None).

Definition newReader (src : Buffer) : reader + error :=
  match src with
  | a :: b :: tl =>
      if Byte.eqb a m1 && Byte.eqb b m2 then inl {| rest := tl |}
      else inr ErrHeader
  | _ => inr ErrUnexpectedEOF
  end.

Definition read (r : reader) (n : nat) : reader * (Buffer * option error) :=
  let '(src', res) := decode n (rest r) in ({| rest := src' |}, res).

Definition rclose (r : reader) : reader * option error := (r, None).

Definition codec : Codec Buffer Buffer :=
  {| CWriter := writer;
     CReader := reader;
     NewWriterLevel := newWriterLevel;
     cw_Write := write;
     cw_Close := close;
     underlying := out;
     NewReader := newReader;
     cr_Read := read;
     cr_Close := rclose |}.

End WithMagic.

(** The two instances used below, with the magic numbers of the two formats. *)
Definition gzip : Codec Buffer Buffer := codec x1f x8b.
Definition zlib : Codec Buffer Buffer := codec x78 x9c.

End Stored.

(** A codec whose sink rejects everything: opening works, writing and
    closing report the sink's error.  It exercises the error paths. *)
Module Broken.

Definition ErrShortWrite : error := errorString "short write"%string.

Definition codec : Codec Buffer Buffer :=
  {| CWriter := Buffer;
     CReader := unit;
     NewWriterLevel := fun w _ => inl w;
     cw_Write := fun w _ => (w, (0, Some ErrShortWrite));
     cw_Close := fun w => (w, Some ErrShortWrite);
     underlying := fun w => w;
     NewReader := fun _ => inl tt;
     cr_Read := fun r _ => (r, ([], Some EOF));
     cr_Close := fun r => (r, None) |}.

End Broken.

(** ** Vocabulary of the statements *)

(** The message of the [default] branch of both switches. *)
Definition errUnsupported : string := "unsupported compression algorithm"%string.

(** The sink as it stands when the writer is handed over, after each
    [Write], and after the final [Close]. *)
Fixpoint sink_trace {Sink T} `{io_Writer T} `{io_Closer T} (obs : T -> Sink)
  (w : T) (chunks : list Buffer) : list Sink :=
  obs w ::
  match chunks with
  | [] => [obs (fst (Close w))]
  | p :: rest => sink_trace obs (fst (Write w p)) rest
  end.

Section Observations.
Context {Sink Source : Type}.

(** What the codec package alone does with a sink: open a writer at the
    level, write the chunks, close.  [None] when the writer cannot be
    opened. *)
Definition codec_output (c : Codec Sink Source) (w : Sink) (lvl : Z)
  (chunks : list Buffer) : option (list Sink * list (Z * option error)) :=
  match NewWriterLevel c w lvl with
  | inl cw => Some (sink_trace (underlying c) cw chunks, snd (write_seq cw chunks))
  | inr _ => None
  end.

Variables gz zl : Codec Sink Source.

(** The same session through the middleware.  [None] when [Writer] panics. *)
Definition middleware_output (m : Middleware) (w : Sink)
  (chunks : list Buffer) : option (list Sink * list (Z * option error)) :=
  match Writer gz zl m w with
  | Returned a => Some (sink_trace (@sink_of _ _ gz zl) a chunks, snd (write_seq a chunks))
  | Panicked _ => None
  end.

(** The result of [Close] on the codec writer an adapter embeds, and the
    sink that call leaves behind. *)
Definition codec_close_error (a : WriterAdapter gz zl) : option error :=
  match a with
  | OfGzipWriteCloser w => snd (Close (gzip_Writer w))
  | OfZlibWriteCloser w => snd (Close (zlib_Writer w))
  end.

Definition codec_close_sink (a : WriterAdapter gz zl) : Sink :=
  match a with
  | OfGzipWriteCloser w => underlying gz (fst (Close (gzip_Writer w)))
  | OfZlibWriteCloser w => underlying zl (fst (Close (zlib_Writer w)))
  end.

End Observations.

(** ** Sessions on a writer, and the level the options settle on *)

(** The test [WithLevel] makes on the level it is given. *)
Definition level_ok (l : Z) : bool := (1 <=? l) && (l <=? 9).

(** The last requested level that passes the test, or the default. *)
Definition effective_level (lvls : list Z) : Z := last (filter level_ok lvls) 6.

(** A caller's calls on a write-side handle, in any order, and what each
    call returns. *)
Inductive WriteOp : Type :=
| DoWrite (p : Buffer)
| DoClose.

Inductive WriteResult : Type :=
| Wrote (n : Z) (err : option error)
| Closed (err : option error).

Fixpoint run_ops {T} `{io_Writer T} `{io_Closer T} (w : T) (ops : list WriteOp)
  : T * list WriteResult :=
  match ops with
  | [] => (w, [])
  | DoWrite p :: rest =>
      let '(w1, (n, err)) := Write w p in
      let '(w2, rs) := run_ops w1 rest in
      (w2, Wrote n err :: rs)
  | DoClose :: rest =>
      let '(w1, err) := Close w in
      let '(w2, rs) := run_ops w1 rest in
      (w2, Closed err :: rs)
  end.

(** A codec writer's result as the adapter hands it on: a [Write] result
    as it is, a [Close] error wrapped with the adapter's message. *)
Definition handed_on (message : string) (r : WriteResult) : WriteResult :=
  match r with
  | Wrote n err => Wrote n err
  | Closed err => Closed (errors_Wrap err message)
  end.

(** ** Options written by a caller

    [Option] is an exported function type, so a caller can pass [New]
    functions of its own next to the values [WithLevel] builds; [New] calls
    each of them on the record under construction. *)

(** [func(m *Middleware) { *m = Middleware{} }]: overwrite the record with
    the zero value. *)
Definition zeroOption : Option :=
  fun _ => {| algorithm := 0; level := 0 |}.


(** * Properties *)

(** ** The stored codec meets the contracts *)

Lemma readAllChunk_pos : (0 < readAllChunk)%nat.
Proof. unfold readAllChunk; lia. Qed.

Lemma Stored_accepts_levels (m1 m2 : byte) : AcceptsLevels (Stored.codec m1 m2).
Proof.
  intros w lvl Hlvl. cbn [NewWriterLevel Stored.codec].
  unfold Stored.newWriterLevel, HuffmanOnly, BestCompression in *.
  destruct (lvl <? -2) eqn:Hlo; [apply Z.ltb_lt in Hlo; lia|].
  destruct (9 <? lvl) eqn:Hhi; [apply Z.ltb_lt in Hhi; lia|].
  cbn. eauto.
Qed.

Lemma Stored_encode_app (p q : Buffer) :
  Stored.encode (p ++ q) = Stored.encode p ++ Stored.encode q.
Proof. unfold Stored.encode. apply flat_map_app. Qed.

(** One [Read] of [n] bytes takes the next [n] data bytes, or what is left
    of them together with [EOF]. *)
Lemma Stored_decode_encode (n : nat) : forall s : Buffer,
  Stored.decode n (Stored.encode s ++ Stored.endMarker) =
  (Stored.encode (skipn n s) ++ Stored.endMarker,
   (firstn n s, if (n <=? List.length s)%nat then None else Some EOF)).
Proof.
  induction n as [|n IH]; intros s.
  - reflexivity.
  - destruct s as [|b s].
    + reflexivity.
    + change (Stored.encode (b :: s) ++ Stored.endMarker)
        with (x01 :: b :: (Stored.encode s ++ Stored.endMarker)).
      cbn [Stored.decode]. change (Byte.eqb x01 x01) with true. cbv iota.
      rewrite IH. reflexivity.
Qed.

(** Writing to an open stored writer appends the encoded chunks behind the
    header, and every call takes its whole chunk. *)
Lemma Stored_write_seq (m1 m2 : byte) (chunks : list Buffer) :
  forall w : Stored.writer,
    Stored.closed w = false ->
    Stored.closed (fst (write_seq (T := CWriter (Stored.codec m1 m2)) w chunks)) = false /\
    Stored.withHeader m1 m2 (fst (write_seq (T := CWriter (Stored.codec m1 m2)) w chunks)) =
      Stored.withHeader m1 m2 w ++ Stored.encode (List.concat chunks) /\
    snd (write_seq (T := CWriter (Stored.codec m1 m2)) w chunks) = all_written chunks.
Proof.
  induction chunks as [|p chunks IH]; intros w Hopen.
  - cbn. rewrite app_nil_r. auto.
  - set (w1 := {| Stored.out := Stored.withHeader m1 m2 w ++ Stored.encode p;
                   Stored.wroteHeader := true; Stored.closed := false |}).
    assert (Hw : Write (T := CWriter (Stored.codec m1 m2)) w p = (w1, (len p, None)))
      by (cbv [Write CWriter_Writer cw_Write Stored.codec Stored.write];
          now rewrite Hopen).
    cbn [write_seq]. rewrite Hw.
    destruct (IH w1 eq_refl) as (Hc & Hh & Hr).
    destruct (write_seq (T := CWriter (Stored.codec m1 m2)) w1 chunks)
      as [w2 ress] eqn:E. cbn [fst snd] in *.
    repeat split; [exact Hc| |cbn; now rewrite Hr].
    rewrite Hh. unfold w1, Stored.withHeader at 1. cbn [Stored.wroteHeader Stored.out].
    cbn [List.concat]. rewrite Stored_encode_app, app_assoc. reflexivity.
Qed.

(** [io.ReadAll] over a stored reader positioned on the encoding of [s]. *)
Lemma Stored_ReadAll_from (m1 m2 : byte) (fuel : nat) :
  forall (s acc : Buffer),
    (List.length s < fuel)%nat ->
    ReadAll_from (T := CReader (Stored.codec m1 m2)) fuel
      {| Stored.rest := Stored.encode s ++ Stored.endMarker |} acc
    = Some (acc ++ s, None).
Proof.
  induction fuel as [|fuel IH]; intros s acc Hlen; [lia|].
  cbn [ReadAll_from]. unfold Read, CReader_Reader.
  cbn [cr_Read Stored.codec]. unfold Stored.read. cbn [Stored.rest].
  rewrite Stored_decode_encode.
  pose proof readAllChunk_pos as Hpos.
  destruct (readAllChunk <=? List.length s)%nat eqn:Hle.
  - apply Nat.leb_le in Hle. rewrite IH.
    + now rewrite <- app_assoc, firstn_skipn.
    + rewrite length_skipn. lia.
  - apply Nat.leb_gt in Hle. change (error_eqb EOF EOF) with true. cbv iota.
    rewrite firstn_all2 by lia. reflexivity.
Qed.

Lemma Stored_round_trips (m1 m2 : byte) : RoundTrips (Stored.codec m1 m2).
Proof.
  intros lvl cw chunks Hnew.
  cbn [NewWriterLevel Stored.codec] in Hnew. unfold Stored.newWriterLevel in Hnew.
  destruct (_ || _); [discriminate|]. injection Hnew as <-.
  set (w0 := {| Stored.out := [] |}).
  destruct (Stored_write_seq m1 m2 chunks w0 eq_refl) as (Hc & Hh & Hr).
  split; [exact Hr|]. unfold finished.
  unfold Close, CWriter_Closer. cbn [cw_Close underlying Stored.codec].
  unfold Stored.close. rewrite Hc. cbn [fst snd Stored.out]. split; [reflexivity|].
  rewrite Hh. unfold w0, Stored.withHeader at 1. cbn [Stored.wroteHeader Stored.out app].
  cbn [NewReader Stored.codec]. unfold Stored.newReader.
  rewrite !(@Byte.byte_dec_lb _ _ eq_refl). cbn [andb].
  eexists; split; [reflexivity|].
  exists (S (List.length (List.concat chunks))). unfold ReadAll.
  now rewrite Stored_ReadAll_from by lia.
Qed.

(** ** Options and construction *)

Lemma WithLevel_in_range (l : Z) (m : Middleware) :
  1 <= l <= 9 -> WithLevel l m = {| algorithm := algorithm m; level := l |}.
Proof.
  intros H. unfold WithLevel.
  destruct (1 <=? l) eqn:H1; [|apply Z.leb_gt in H1; lia].
  destruct (l <=? 9) eqn:H9; [reflexivity|apply Z.leb_gt in H9; lia].
Qed.

Lemma WithLevel_out_of_range (l : Z) (m : Middleware) :
  ~ (1 <= l <= 9) -> WithLevel l m = m.
Proof.
  intros H. unfold WithLevel.
  destruct (1 <=? l) eqn:H1; [|reflexivity].
  destruct (l <=? 9) eqn:H9; [|reflexivity].
  apply Z.leb_le in H1, H9. lia.
Qed.

Lemma WithLevel_algorithm (l : Z) (m : Middleware) :
  algorithm (WithLevel l m) = algorithm m.
Proof. unfold WithLevel. now destruct (_ && _). Qed.

Lemma WithLevel_keeps_range (l : Z) (m : Middleware) :
  1 <= level m <= 9 -> 1 <= level (WithLevel l m) <= 9.
Proof.
  intros Hm. unfold WithLevel.
  destruct (1 <=? l) eqn:H1; [|exact Hm].
  destruct (l <=? 9) eqn:H9; [|exact Hm].
  apply Z.leb_le in H1, H9. cbn. lia.
Qed.

(** [New] applies the options left to right: the last one is applied last. *)
Lemma New_snoc (a : Algorithm) (opts : list Option) (opt : Option) :
  New a (opts ++ [opt]) = opt (New a opts).
Proof. unfold New. now rewrite fold_left_app. Qed.

Lemma New_WithLevel_snoc (a : Algorithm) (lvls : list Z) (l : Z) :
  New a (map WithLevel (lvls ++ [l])) = WithLevel l (New a (map WithLevel lvls)).
Proof. rewrite map_app. apply New_snoc. Qed.

Lemma New_algorithm (a : Algorithm) (lvls : list Z) :
  algorithm (New a (map WithLevel lvls)) = a.
Proof.
  induction lvls as [|l lvls IH] using rev_ind; [reflexivity|].
  now rewrite New_WithLevel_snoc, WithLevel_algorithm.
Qed.

Lemma New_level_range (a : Algorithm) (lvls : list Z) :
  1 <= level (New a (map WithLevel lvls)) <= 9.
Proof.
  induction lvls as [|l lvls IH] using rev_ind; [cbn; lia|].
  rewrite New_WithLevel_snoc. now apply WithLevel_keeps_range.
Qed.

Lemma New_all_rejected (a : Algorithm) (lvls : list Z) :
  Forall (fun l => ~ (1 <= l <= 9)) lvls ->
  New a (map WithLevel lvls) = New a [].
Proof.
  induction lvls as [|l lvls IH] using rev_ind; [reflexivity|].
  intros H. apply Forall_app in H as [Hl Hlast].
  rewrite New_WithLevel_snoc, WithLevel_out_of_range; [auto|].
  now inversion Hlast.
Qed.

(** C2.  Whatever levels are requested through [WithLevel], the level of
    the constructed [Middleware] lies in [1,9]: it is 6 when no option is
    given, a request in [1,9] becomes the level, a request outside [1,9]
    changes nothing (so the level is still 6 when every request was out of
    range).  [New] returns a [Middleware] and nothing else: there is no
    error to produce. *)
Theorem New_level_invariant (a : Algorithm) (lvls : list Z) :
  1 <= level (New a (map WithLevel lvls)) <= 9 /\
  level (New a []) = 6 /\
  (forall l, 1 <= l <= 9 ->
     level (New a (map WithLevel (lvls ++ [l]))) = l) /\
  (forall l, ~ (1 <= l <= 9) ->
     New a (map WithLevel (lvls ++ [l])) = New a (map WithLevel lvls)) /\
  (Forall (fun l => ~ (1 <= l <= 9)) lvls ->
     level (New a (map WithLevel lvls)) = 6).
Proof.
  split; [apply New_level_range|]. split; [reflexivity|]. repeat split.
  - intros l Hl. now rewrite New_WithLevel_snoc, WithLevel_in_range.
  - intros l Hl. now rewrite New_WithLevel_snoc, WithLevel_out_of_range.
  - intros H. now rewrite New_all_rejected.
Qed.

Lemma New_level_invariant_witness :
  level (New Gzip (map WithLevel [0; 15; -1])) = 6 /\
  level (New Gzip (map WithLevel ([0; 15; -1] ++ [9]))) = 9 /\
  New Zlib (map WithLevel ([3; 15] ++ [0])) = New Zlib (map WithLevel [3; 15]).
Proof.
  destruct (New_level_invariant Gzip [0; 15; -1]) as (_ & _ & Hin & _ & Hdef).
  destruct (New_level_invariant Zlib [3; 15]) as (_ & _ & _ & Hout & _).
  split; [|split].
  - apply Hdef. repeat constructor; lia.
  - apply Hin. lia.
  - apply Hout. lia.
Defined.

(** ** The adapters forward to the codec handle they embed *)

Section Forwarding.
Context {Sink Source : Type}.
Variables gz zl : Codec Sink Source.

Ltac methods :=
  cbv [Write Close Read
       WriterAdapter_Writer WriterAdapter_Closer ReaderAdapter_Reader
       WriterAdapter_Write WriterAdapter_Close ReaderAdapter_Read
       gzipWriteCloser_Write gzipWriteCloser_Close
       zlibWriteCloser_Write zlibWriteCloser_Close
       zlibReadCloser_Read zlibReadCloser_Close
       CWriter_Writer CWriter_Closer CReader_Reader CReader_Closer
       gzip_Writer zlib_Writer ReadCloser].

Lemma Write_gzip (cw : CWriter gz) (p : Buffer) :
  Write (OfGzipWriteCloser (zlib := zl) {| gzip_Writer := cw |}) p =
  (OfGzipWriteCloser {| gzip_Writer := fst (Write cw p) |}, snd (Write cw p)).
Proof. methods. now destruct (cw_Write gz cw p). Qed.

Lemma Write_zlib (cw : CWriter zl) (p : Buffer) :
  Write (OfZlibWriteCloser (gzip := gz) {| zlib_Writer := cw |}) p =
  (OfZlibWriteCloser {| zlib_Writer := fst (Write cw p) |}, snd (Write cw p)).
Proof. methods. now destruct (cw_Write zl cw p). Qed.

Lemma Close_gzip (cw : CWriter gz) :
  Close (OfGzipWriteCloser (zlib := zl) {| gzip_Writer := cw |}) =
  (OfGzipWriteCloser {| gzip_Writer := fst (Close cw) |},
   errors_Wrap (snd (Close cw)) "failed to close gzip writer").
Proof. methods. now destruct (cw_Close gz cw) as [cw' [e|]]. Qed.

Lemma Close_zlib (cw : CWriter zl) :
  Close (OfZlibWriteCloser (gzip := gz) {| zlib_Writer := cw |}) =
  (OfZlibWriteCloser {| zlib_Writer := fst (Close cw) |},
   errors_Wrap (snd (Close cw)) "failed to close zlib writer").
Proof. methods. now destruct (cw_Close zl cw) as [cw' [e|]]. Qed.

Lemma Read_gzip (cr : CReader gz) (n : nat) :
  Read (OfGzipReader (zlib := zl) cr) n =
  (OfGzipReader (fst (Read cr n)), snd (Read cr n)).
Proof. methods. now destruct (cr_Read gz cr n). Qed.

Lemma Read_zlib (cr : CReader zl) (n : nat) :
  Read (OfZlibReadCloser (gzip := gz) {| ReadCloser := cr |}) n =
  (OfZlibReadCloser {| ReadCloser := fst (Read cr n) |}, snd (Read cr n)).
Proof. methods. now destruct (cr_Read zl cr n). Qed.

Lemma write_seq_gzip (chunks : list Buffer) : forall cw : CWriter gz,
  write_seq (OfGzipWriteCloser (zlib := zl) {| gzip_Writer := cw |}) chunks =
  (OfGzipWriteCloser {| gzip_Writer := fst (write_seq cw chunks) |},
   snd (write_seq cw chunks)).
Proof.
  induction chunks as [|p chunks IH]; intros cw; [reflexivity|].
  cbn [write_seq]. rewrite Write_gzip, IH.
  destruct (Write cw p) as [cw1 res]. cbn [fst snd].
  now destruct (write_seq cw1 chunks).
Qed.

Lemma write_seq_zlib (chunks : list Buffer) : forall cw : CWriter zl,
  write_seq (OfZlibWriteCloser (gzip := gz) {| zlib_Writer := cw |}) chunks =
  (OfZlibWriteCloser {| zlib_Writer := fst (write_seq cw chunks) |},
   snd (write_seq cw chunks)).
Proof.
  induction chunks as [|p chunks IH]; intros cw; [reflexivity|].
  cbn [write_seq]. rewrite Write_zlib, IH.
  destruct (Write cw p) as [cw1 res]. cbn [fst snd].
  now destruct (write_seq cw1 chunks).
Qed.

Lemma read_seq_gzip (sizes : list nat) : forall cr : CReader gz,
  read_seq (OfGzipReader (zlib := zl) cr) sizes =
  (OfGzipReader (fst (read_seq cr sizes)), snd (read_seq cr sizes)).
Proof.
  induction sizes as [|n sizes IH]; intros cr; [reflexivity|].
  cbn [read_seq]. rewrite Read_gzip, IH.
  destruct (Read cr n) as [cr1 res]. cbn [fst snd].
  now destruct (read_seq cr1 sizes).
Qed.

Lemma read_seq_zlib (sizes : list nat) : forall cr : CReader zl,
  read_seq (OfZlibReadCloser (gzip := gz) {| ReadCloser := cr |}) sizes =
  (OfZlibReadCloser {| ReadCloser := fst (read_seq cr sizes) |},
   snd (read_seq cr sizes)).
Proof.
  induction sizes as [|n sizes IH]; intros cr; [reflexivity|].
  cbn [read_seq]. rewrite Read_zlib, IH.
  destruct (Read cr n) as [cr1 res]. cbn [fst snd].
  now destruct (read_seq cr1 sizes).
Qed.

Lemma ReadAll_from_gzip (fuel : nat) : forall (cr : CReader gz) (b : Buffer),
  ReadAll_from fuel (OfGzipReader (zlib := zl) cr) b = ReadAll_from fuel cr b.
Proof.
  induction fuel as [|fuel IH]; intros cr b; [reflexivity|].
  cbn [ReadAll_from]. rewrite Read_gzip.
  destruct (Read cr readAllChunk) as [cr1 [data [e|]]]; cbn [fst snd]; auto.
Qed.

Lemma ReadAll_from_zlib (fuel : nat) : forall (cr : CReader zl) (b : Buffer),
  ReadAll_from fuel (OfZlibReadCloser (gzip := gz) {| ReadCloser := cr |}) b =
  ReadAll_from fuel cr b.
Proof.
  induction fuel as [|fuel IH]; intros cr b; [reflexivity|].
  cbn [ReadAll_from]. rewrite Read_zlib.
  destruct (Read cr readAllChunk) as [cr1 [data [e|]]]; cbn [fst snd]; auto.
Qed.

Lemma sink_trace_gzip (chunks : list Buffer) : forall cw : CWriter gz,
  sink_trace (@sink_of _ _ gz zl) (OfGzipWriteCloser {| gzip_Writer := cw |}) chunks =
  sink_trace (underlying gz) cw chunks.
Proof.
  induction chunks as [|p chunks IH]; intros cw; cbn [sink_trace].
  - now rewrite Close_gzip.
  - rewrite Write_gzip. cbn [fst]. now rewrite IH.
Qed.

Lemma sink_trace_zlib (chunks : list Buffer) : forall cw : CWriter zl,
  sink_trace (@sink_of _ _ gz zl) (OfZlibWriteCloser {| zlib_Writer := cw |}) chunks =
  sink_trace (underlying zl) cw chunks.
Proof.
  induction chunks as [|p chunks IH]; intros cw; cbn [sink_trace].
  - now rewrite Close_zlib.
  - rewrite Write_zlib. cbn [fst]. now rewrite IH.
Qed.

End Forwarding.

(** ** Dispatch on the algorithm *)

Section Dispatch.
Context {Sink Source : Type}.
Variables gz zl : Codec Sink Source.

Lemma Writer_Gzip (m : Middleware) (w : Sink) :
  algorithm m = Gzip ->
  Writer gz zl m w =
  match NewWriterLevel gz w (level m) with
  | inr err => Panicked ("failed to create gzip writer: " ++ Error err)
  | inl cw => Returned (OfGzipWriteCloser {| gzip_Writer := cw |})
  end.
Proof. intros H. unfold Writer. now rewrite H. Qed.

Lemma Writer_Zlib (m : Middleware) (w : Sink) :
  algorithm m = Zlib ->
  Writer gz zl m w =
  match NewWriterLevel zl w (level m) with
  | inr err => Panicked ("failed to create zlib writer: " ++ Error err)
  | inl cw => Returned (OfZlibWriteCloser {| zlib_Writer := cw |})
  end.
Proof. intros H. unfold Writer. now rewrite H. Qed.

Lemma Reader_Gzip (m : Middleware) (r : Source) :
  algorithm m = Gzip ->
  Reader gz zl m r =
  match NewReader gz r with
  | inr err => Panicked ("failed to create gzip reader: " ++ Error err)
  | inl cr => Returned (OfGzipReader cr)
  end.
Proof. intros H. unfold Reader. now rewrite H. Qed.

Lemma Reader_Zlib (m : Middleware) (r : Source) :
  algorithm m = Zlib ->
  Reader gz zl m r =
  match NewReader zl r with
  | inr err => Panicked ("failed to create zlib reader: " ++ Error err)
  | inl cr => Returned (OfZlibReadCloser {| ReadCloser := cr |})
  end.
Proof. intros H. unfold Reader. now rewrite H. Qed.

Lemma Writer_unsupported (m : Middleware) (w : Sink) :
  algorithm m <> Gzip -> algorithm m <> Zlib ->
  Writer gz zl m w = Panicked errUnsupported.
Proof.
  intros Hg Hz. unfold Writer.
  apply Z.eqb_neq in Hg, Hz. now rewrite Hg, Hz.
Qed.

Lemma Reader_unsupported (m : Middleware) (r : Source) :
  algorithm m <> Gzip -> algorithm m <> Zlib ->
  Reader gz zl m r = Panicked errUnsupported.
Proof.
  intros Hg Hz. unfold Reader.
  apply Z.eqb_neq in Hg, Hz. now rewrite Hg, Hz.
Qed.

(** A returned adapter and an initialisation-failure panic both differ
    from the unsupported-algorithm panic. *)
Ltac not_unsupported H :=
  unfold errUnsupported in H; cbn in H; discriminate H.

(** Every algorithm value is [Gzip], [Zlib], or neither. *)
Lemma Algorithm_cases (a : Algorithm) :
  a = Gzip \/ a = Zlib \/ (a <> Gzip /\ a <> Zlib).
Proof. unfold Gzip, Zlib. lia. Qed.

(** C3.  Both switches have exactly the cases [Gzip] and [Zlib]: [Writer]
    and [Reader] panic with the unsupported-algorithm message exactly when
    the algorithm is neither, and an adapter that is returned was built by
    the codec package of the selected algorithm, from the sink (source) and
    level given; no other value is mapped to one of the two codecs. *)
Theorem dispatch_exhaustive (m : Middleware) (w : Sink) (r : Source) :
  (Writer gz zl m w = Panicked errUnsupported <->
     algorithm m <> Gzip /\ algorithm m <> Zlib) /\
  (Reader gz zl m r = Panicked errUnsupported <->
     algorithm m <> Gzip /\ algorithm m <> Zlib) /\
  (forall a, Writer gz zl m w = Returned a ->
     (algorithm m = Gzip /\
      exists cw, NewWriterLevel gz w (level m) = inl cw /\
                 a = OfGzipWriteCloser {| gzip_Writer := cw |}) \/
     (algorithm m = Zlib /\
      exists cw, NewWriterLevel zl w (level m) = inl cw /\
                 a = OfZlibWriteCloser {| zlib_Writer := cw |})) /\
  (forall a, Reader gz zl m r = Returned a ->
     (algorithm m = Gzip /\
      exists cr, NewReader gz r = inl cr /\ a = OfGzipReader cr) \/
     (algorithm m = Zlib /\
      exists cr, NewReader zl r = inl cr /\
                 a = OfZlibReadCloser {| ReadCloser := cr |})).
Proof.
  destruct (Algorithm_cases (algorithm m)) as [Hg | [Hz | [Hg Hz]]].
  - rewrite (Writer_Gzip _ _ Hg), (Reader_Gzip _ _ Hg).
    split; [|split; [|split]].
    + split; [|tauto]. intros H.
      destruct (NewWriterLevel gz w (level m)); not_unsupported H.
    + split; [|tauto]. intros H.
      destruct (NewReader gz r); not_unsupported H.
    + intros a H. left. split; [assumption|].
      destruct (NewWriterLevel gz w (level m)) as [cw|e]; [|discriminate H].
      injection H as <-. eauto.
    + intros a H. left. split; [assumption|].
      destruct (NewReader gz r) as [cr|e]; [|discriminate H].
      injection H as <-. eauto.
  - assert (Hg : algorithm m <> Gzip) by (rewrite Hz; discriminate).
    rewrite (Writer_Zlib _ _ Hz), (Reader_Zlib _ _ Hz).
    split; [|split; [|split]].
    + split; [|tauto]. intros H.
      destruct (NewWriterLevel zl w (level m)); not_unsupported H.
    + split; [|tauto]. intros H.
      destruct (NewReader zl r); not_unsupported H.
    + intros a H. right. split; [assumption|].
      destruct (NewWriterLevel zl w (level m)) as [cw|e]; [|discriminate H].
      injection H as <-. eauto.
    + intros a H. right. split; [assumption|].
      destruct (NewReader zl r) as [cr|e]; [|discriminate H].
      injection H as <-. eauto.
  - rewrite Writer_unsupported, Reader_unsupported by assumption.
    repeat split; auto; discriminate.
Qed.

(** C9.  With options built by [WithLevel], [New] takes any algorithm
    value as it is and checks nothing: the value is stored unchanged next
    to a level in [1,9].  A value that
    is neither [Gzip] nor [Zlib] shows only when [Writer] or [Reader] is
    called, which then panic. *)
Theorem New_defers_algorithm_check
  (a : Algorithm) (lvls : list Z) (w : Sink) (r : Source) :
  algorithm (New a (map WithLevel lvls)) = a /\
  1 <= level (New a (map WithLevel lvls)) <= 9 /\
  (a <> Gzip -> a <> Zlib ->
   Writer gz zl (New a (map WithLevel lvls)) w = Panicked errUnsupported /\
   Reader gz zl (New a (map WithLevel lvls)) r = Panicked errUnsupported).
Proof.
  split; [apply New_algorithm|]. split; [apply New_level_range|].
  intros Hg Hz. split.
  - apply Writer_unsupported; now rewrite New_algorithm.
  - apply Reader_unsupported; now rewrite New_algorithm.
Qed.


End Dispatch.

(** ** What flows through an adapter *)

Section Streams.
Context {Sink Source : Type}.
Variables gz zl : Codec Sink Source.

(** What [Writer] returns embeds the writer the selected codec opened. *)
Lemma Writer_Returned (m : Middleware) (w : Sink) (a : WriterAdapter gz zl) :
  Writer gz zl m w = Returned a ->
  (algorithm m = Gzip /\
   exists cw, NewWriterLevel gz w (level m) = inl cw /\
              a = OfGzipWriteCloser {| gzip_Writer := cw |}) \/
  (algorithm m = Zlib /\ algorithm m <> Gzip /\
   exists cw, NewWriterLevel zl w (level m) = inl cw /\
              a = OfZlibWriteCloser {| zlib_Writer := cw |}).
Proof.
  intros H. destruct (Algorithm_cases (algorithm m)) as [Hg | [Hz | [Hg Hz]]].
  - left. split; [assumption|]. rewrite Writer_Gzip in H by assumption.
    destruct (NewWriterLevel gz w (level m)) as [cw|e]; [|discriminate H].
    injection H as <-. eauto.
  - right. split; [assumption|]. split; [rewrite Hz; discriminate|].
    rewrite Writer_Zlib in H by assumption.
    destruct (NewWriterLevel zl w (level m)) as [cw|e]; [|discriminate H].
    injection H as <-. eauto.
  - rewrite Writer_unsupported in H by assumption. discriminate H.
Qed.

(** C5.  The adapter [Writer] returns has [Write] and [Close].  In any
    state reached by writing, its [Close] closes the embedded codec writer
    (the sink is left as that call leaves it), returns nil exactly when
    that call returns nil, and otherwise returns the codec's error wrapped
    with a message naming the selected algorithm's writer. *)
Theorem Close_wraps_codec_error
  (m : Middleware) (w : Sink) (a : WriterAdapter gz zl) (chunks : list Buffer) :
  Writer gz zl m w = Returned a ->
  let a' := fst (write_seq a chunks) in
  let name := if algorithm m =? Gzip then "gzip"%string else "zlib"%string in
  (snd (Close a') = None <-> codec_close_error a' = None) /\
  (forall e, codec_close_error a' = Some e ->
     snd (Close a') =
     Some (withMessage e ("failed to close " ++ name ++ " writer"))) /\
  sink_of (fst (Close a')) = codec_close_sink a'.
Proof.
  intros H. destruct (Writer_Returned _ _ H)
    as [(Hg & cw & _ & ->) | (Hz & Hg & cw & _ & ->)]; cbv zeta.
  - rewrite write_seq_gzip, Hg. cbn [fst Z.eqb Gzip].
    rewrite Close_gzip. cbn [fst snd codec_close_error codec_close_sink sink_of gzip_Writer].
    destruct (snd (Close (fst (write_seq cw chunks)))) as [e|]; cbn [errors_Wrap].
    + repeat split; try discriminate. now intros e' [= ->].
    + repeat split; auto; discriminate.
  - apply Z.eqb_neq in Hg. rewrite write_seq_zlib, Hg. cbn [fst].
    rewrite Close_zlib. cbn [fst snd codec_close_error codec_close_sink sink_of zlib_Writer].
    destruct (snd (Close (fst (write_seq cw chunks)))) as [e|]; cbn [errors_Wrap].
    + repeat split; try discriminate. now intros e' [= ->].
    + repeat split; auto; discriminate.
Qed.

(** C6.  For [Gzip] and for [Zlib]: when the codec's [NewReader] rejects
    the source (its header check), [Reader] panics there and then with that
    error's text; when [NewReader] accepts it, [Reader] returns an adapter
    whose every [Read] returns what the codec reader's [Read] returns, so
    an error met later in the stream is an ordinary return value of that
    call. *)
Theorem Reader_header_panics_corruption_returns (m : Middleware) (src : Source) :
  (algorithm m = Gzip ->
   (forall e, NewReader gz src = inr e ->
      Reader gz zl m src =
      Panicked ("failed to create gzip reader: " ++ Error e)) /\
   (forall cr, NewReader gz src = inl cr ->
      exists a, Reader gz zl m src = Returned a /\
        forall sizes, snd (read_seq a sizes) = snd (read_seq cr sizes))) /\
  (algorithm m = Zlib ->
   (forall e, NewReader zl src = inr e ->
      Reader gz zl m src =
      Panicked ("failed to create zlib reader: " ++ Error e)) /\
   (forall cr, NewReader zl src = inl cr ->
      exists a, Reader gz zl m src = Returned a /\
        forall sizes, snd (read_seq a sizes) = snd (read_seq cr sizes))).
Proof.
  split; intros Halg.
  - rewrite Reader_Gzip by assumption. split.
    + now intros e ->.
    + intros cr ->. eexists; split; [reflexivity|].
      intros sizes. now rewrite read_seq_gzip.
  - rewrite Reader_Zlib by assumption. split.
    + now intros e ->.
    + intros cr ->. eexists; split; [reflexivity|].
      intros sizes. now rewrite read_seq_zlib.
Qed.

(** C7.  Through the middleware the sink holds, when the adapter is handed
    over, after every [Write] and after [Close], exactly what it holds
    when the selected codec's writer is driven directly with the same
    level and the same byte slices, and every [Write] returns what the
    codec's [Write] returns: the middleware puts no byte of its own into
    the sink. *)
Theorem middleware_adds_no_framing
  (m : Middleware) (w : Sink) (chunks : list Buffer) :
  (algorithm m = Gzip ->
   middleware_output gz zl m w chunks = codec_output gz w (level m) chunks) /\
  (algorithm m = Zlib ->
   middleware_output gz zl m w chunks = codec_output zl w (level m) chunks).
Proof.
  unfold middleware_output, codec_output. split; intros Halg.
  - rewrite Writer_Gzip by assumption.
    destruct (NewWriterLevel gz w (level m)) as [cw|e]; [|reflexivity].
    now rewrite sink_trace_gzip, write_seq_gzip.
  - rewrite Writer_Zlib by assumption.
    destruct (NewWriterLevel zl w (level m)) as [cw|e]; [|reflexivity].
    now rewrite sink_trace_zlib, write_seq_zlib.
Qed.

(** The adapter neither merges nor splits [Write] calls.  So a split of the
    data over several calls leaves in the sink what one call leaves there
    whenever that is so for the codec writer itself. *)
Lemma chunking_as_in_codec_gzip (cw : CWriter gz) (chunks : list Buffer) :
  underlying gz (finished cw chunks) =
  underlying gz (finished cw [List.concat chunks]) ->
  sink_of (finished (OfGzipWriteCloser (zlib := zl) {| gzip_Writer := cw |}) chunks) =
  sink_of (finished (OfGzipWriteCloser (zlib := zl) {| gzip_Writer := cw |})
             [List.concat chunks]).
Proof.
  unfold finished. rewrite !write_seq_gzip. cbn [fst].
  now rewrite !Close_gzip.
Qed.

Lemma chunking_as_in_codec_zlib (cw : CWriter zl) (chunks : list Buffer) :
  underlying zl (finished cw chunks) =
  underlying zl (finished cw [List.concat chunks]) ->
  sink_of (finished (OfZlibWriteCloser (gzip := gz) {| zlib_Writer := cw |}) chunks) =
  sink_of (finished (OfZlibWriteCloser (gzip := gz) {| zlib_Writer := cw |})
             [List.concat chunks]).
Proof.
  unfold finished. rewrite !write_seq_zlib. cbn [fst].
  now rewrite !Close_zlib.
Qed.

End Streams.

(** ** Round trip through the middleware, over in-memory buffers *)

Section RoundTrip.
Variables gz zl : Codec Buffer Buffer.
Hypothesis gz_levels : AcceptsLevels gz.
Hypothesis zl_levels : AcceptsLevels zl.
Hypothesis gz_round_trips : RoundTrips gz.
Hypothesis zl_round_trips : RoundTrips zl.

(** Streaming form: any sequence of [Write] calls, then [Close], then
    [Reader] over the bytes produced and [io.ReadAll]. *)
Lemma round_trip_chunks (a : Algorithm) (lvls : list Z) (chunks : list Buffer) :
  a = Gzip \/ a = Zlib ->
  exists wa,
    Writer gz zl (New a (map WithLevel lvls)) [] = Returned wa /\
    snd (write_seq wa chunks) = all_written chunks /\
    snd (Close (fst (write_seq wa chunks))) = None /\
    exists ra,
      Reader gz zl (New a (map WithLevel lvls)) (sink_of (finished wa chunks))
      = Returned ra /\
      exists fuel, ReadAll fuel ra = Some (List.concat chunks, None).
Proof.
  intros Ha. set (m := New a (map WithLevel lvls)).
  assert (Halg : algorithm m = a) by apply New_algorithm.
  assert (Hok : HuffmanOnly <= level m <= BestCompression)
    by (pose proof (New_level_range a lvls);
        unfold HuffmanOnly, BestCompression, m; lia).
  destruct Ha as [-> | ->].
  - destruct (gz_levels [] Hok) as [cw Hnew].
    destruct (gz_round_trips _ chunks Hnew) as (Hr & Hc & cr & Hnr & fuel & Hall).
    rewrite Writer_Gzip, Hnew by assumption.
    eexists; split; [reflexivity|]. unfold finished in *.
    rewrite write_seq_gzip. cbn [fst snd]. rewrite Close_gzip, Hc. cbn [fst snd].
    split; [assumption|]. split; [reflexivity|].
    rewrite Reader_Gzip by assumption. cbn [sink_of gzip_Writer]. rewrite Hnr.
    eexists; split; [reflexivity|]. exists fuel.
    unfold ReadAll in *. now rewrite ReadAll_from_gzip.
  - destruct (zl_levels [] Hok) as [cw Hnew].
    destruct (zl_round_trips _ chunks Hnew) as (Hr & Hc & cr & Hnr & fuel & Hall).
    rewrite Writer_Zlib, Hnew by assumption.
    eexists; split; [reflexivity|]. unfold finished in *.
    rewrite write_seq_zlib. cbn [fst snd]. rewrite Close_zlib, Hc. cbn [fst snd].
    split; [assumption|]. split; [reflexivity|].
    rewrite Reader_Zlib by assumption. cbn [sink_of zlib_Writer]. rewrite Hnr.
    eexists; split; [reflexivity|]. exists fuel.
    unfold ReadAll in *. now rewrite ReadAll_from_zlib.
Qed.

(** C1.  With codec packages that accept the levels and read back what
    they wrote: for [Gzip] and [Zlib], every level in [1,9] and every byte
    sequence [s], [Writer] over an empty buffer returns an adapter; writing
    [s] takes all of it without error; [Close] returns nil; [Reader] over
    the bytes then in the buffer returns an adapter, and [io.ReadAll] of it
    yields [s] and a nil error.  Closing without any write reads back as
    the empty sequence in the same way. *)
Theorem Writer_Reader_round_trip (a : Algorithm) (l : Z) (s : Buffer) :
  a = Gzip \/ a = Zlib ->
  1 <= l <= 9 ->
  level (New a [WithLevel l]) = l /\
  exists wa,
    Writer gz zl (New a [WithLevel l]) [] = Returned wa /\
    snd (Write wa s) = (len s, None) /\
    snd (Close (fst (Write wa s))) = None /\
    (exists ra,
       Reader gz zl (New a [WithLevel l])
         (sink_of (fst (Close (fst (Write wa s))))) = Returned ra /\
       exists fuel, ReadAll fuel ra = Some (s, None)) /\
    snd (Close wa) = None /\
    (exists ra,
       Reader gz zl (New a [WithLevel l]) (sink_of (fst (Close wa)))
       = Returned ra /\
       exists fuel, ReadAll fuel ra = Some ([], None)).
Proof.
  intros Ha Hl.
  split; [cbn; now rewrite WithLevel_in_range|].
  destruct (round_trip_chunks [l] [s] Ha)
    as (wa & Hw & Hr & Hc & ra & Hrd & fuel & Hall).
  destruct (round_trip_chunks [l] [] Ha)
    as (wa0 & Hw0 & _ & Hc0 & ra0 & Hrd0 & fuel0 & Hall0).
  cbn [map] in *. rewrite Hw in Hw0. injection Hw0 as <-.
  exists wa. split; [assumption|].
  unfold finished in *. cbn [write_seq all_written map List.concat] in *.
  rewrite app_nil_r in Hall.
  destruct (Write wa s) as [w1 res]. cbn [fst snd] in *.
  injection Hr as ->.
  split; [reflexivity|]. split; [assumption|].
  split; [exists ra; split; [assumption|now exists fuel]|].
  split; [assumption|]. exists ra0; split; [assumption|now exists fuel0].
Qed.

End RoundTrip.

(** ** The statements at concrete inputs *)

(** A whole session over the stored codecs, evaluated: two writes, close,
    the bytes in the sink, and what reads back. *)
Example stored_session :
  match Writer Stored.gzip Stored.zlib (New Gzip [WithLevel 9]) [] with
  | Returned wa =>
      sink_of (finished wa [[x48]; [x69]]) = [x1f; x8b; x01; x48; x01; x69; x00] /\
      match Reader Stored.gzip Stored.zlib (New Gzip [WithLevel 9])
              (sink_of (finished wa [[x48]; [x69]])) with
      | Returned ra => ReadAll 1 ra = Some ([x48; x69], None)
      | Panicked _ => False
      end
  | Panicked _ => False
  end.
Proof. vm_compute. split; reflexivity. Qed.

(** The tests' [Algorithm(999)]. *)
Example unsupported_999 :
  Writer Stored.gzip Stored.zlib (New 999 []) [] =
  Panicked "unsupported compression algorithm".
Proof. reflexivity. Qed.

(** A level the codec rejects would reach the initialisation panic; [New]
    never produces one. *)
Example rejected_level_panics :
  Writer Stored.gzip Stored.zlib {| algorithm := Gzip; level := 15 |} [] =
  Panicked "failed to create gzip writer: invalid compression level".
Proof. reflexivity. Qed.

Lemma Writer_Reader_round_trip_witness :
  (Zlib = Gzip \/ Zlib = Zlib) /\ 1 <= 9 <= 9 /\
  level (New Zlib [WithLevel 9]) = 9 /\
  exists wa,
    Writer Stored.gzip Stored.zlib (New Zlib [WithLevel 9]) [] = Returned wa /\
    snd (Write wa [x48; x69]) = (len [x48; x69], None) /\
    snd (Close (fst (Write wa [x48; x69]))) = None /\
    (exists ra,
       Reader Stored.gzip Stored.zlib (New Zlib [WithLevel 9])
         (sink_of (fst (Close (fst (Write wa [x48; x69]))))) = Returned ra /\
       exists fuel, ReadAll fuel ra = Some ([x48; x69], None)) /\
    snd (Close wa) = None /\
    (exists ra,
       Reader Stored.gzip Stored.zlib (New Zlib [WithLevel 9])
         (sink_of (fst (Close wa))) = Returned ra /\
       exists fuel, ReadAll fuel ra = Some ([], None)).
Proof.
  split; [right; reflexivity|]. split; [lia|].
  apply (@Writer_Reader_round_trip Stored.gzip Stored.zlib
           (@Stored_accepts_levels x1f x8b) (@Stored_accepts_levels x78 x9c)
           (@Stored_round_trips x1f x8b) (@Stored_round_trips x78 x9c)
           Zlib 9 [x48; x69]).
  - right; reflexivity.
  - lia.
Defined.

Lemma dispatch_exhaustive_witness :
  Writer Stored.gzip Stored.zlib (New 999 []) [] = Panicked errUnsupported /\
  Reader Stored.gzip Stored.zlib (New 999 []) [] = Panicked errUnsupported /\
  (Writer Stored.gzip Stored.zlib (New Zlib []) [] <> Panicked errUnsupported).
Proof.
  destruct (dispatch_exhaustive Stored.gzip Stored.zlib (New 999 []) [] [])
    as (Hw & Hr & _).
  destruct (dispatch_exhaustive Stored.gzip Stored.zlib (New Zlib []) [] [])
    as (Hz & _).
  split; [|split].
  - apply Hw. split; discriminate.
  - apply Hr. split; discriminate.
  - intros H. apply Hz in H. destruct H as [_ H]. now apply H.
Defined.

Lemma Close_wraps_codec_error_witness :
  Writer Broken.codec Stored.zlib (New Gzip []) [] =
    Returned (OfGzipWriteCloser {| gzip_Writer := [] : CWriter Broken.codec |}) /\
  snd (Close (fst (write_seq
         (OfGzipWriteCloser (zlib := Stored.zlib)
            {| gzip_Writer := [] : CWriter Broken.codec |}) [[x41]]))) =
  Some (withMessage Broken.ErrShortWrite "failed to close gzip writer").
Proof.
  split; [reflexivity|].
  destruct (@Close_wraps_codec_error _ _ Broken.codec Stored.zlib (New Gzip []) []
              (OfGzipWriteCloser {| gzip_Writer := [] : CWriter Broken.codec |})
              [[x41]] eq_refl) as (_ & H & _).
  exact (H Broken.ErrShortWrite eq_refl).
Defined.

Lemma Reader_header_panics_corruption_returns_witness :
  Reader Stored.gzip Stored.zlib (New Gzip []) [x00; x00] =
    Panicked "failed to create gzip reader: invalid header" /\
  exists a,
    Reader Stored.gzip Stored.zlib (New Gzip []) [x1f; x8b; x01; x41; x07] =
      Returned a /\
    snd (read_seq a [4%nat; 4%nat]) =
      [([x41], Some Stored.ErrCorrupt); ([], Some Stored.ErrCorrupt)].
Proof.
  split.
  - destruct (Reader_header_panics_corruption_returns Stored.gzip Stored.zlib
                (New Gzip []) [x00; x00]) as [Hg _].
    destruct (Hg eq_refl) as [Hbad _].
    exact (Hbad Stored.ErrHeader eq_refl).
  - destruct (Reader_header_panics_corruption_returns Stored.gzip Stored.zlib
                (New Gzip []) [x1f; x8b; x01; x41; x07]) as [Hg _].
    destruct (Hg eq_refl) as [_ Hok].
    destruct (Hok {| Stored.rest := [x01; x41; x07] |} eq_refl) as (a & Ha & Hreads).
    exists a. split; [exact Ha|]. rewrite Hreads. reflexivity.
Defined.

Lemma middleware_adds_no_framing_witness :
  middleware_output Stored.gzip Stored.zlib (New Gzip []) [] [[x41]; [x42]] =
    codec_output Stored.gzip [] 6 [[x41]; [x42]] /\
  middleware_output Stored.gzip Stored.zlib (New Zlib [WithLevel 1]) [] [[x41]] =
    codec_output Stored.zlib [] 1 [[x41]].
Proof.
  split.
  - exact (proj1 (middleware_adds_no_framing Stored.gzip Stored.zlib
                    (New Gzip []) [] [[x41]; [x42]]) eq_refl).
  - exact (proj2 (middleware_adds_no_framing Stored.gzip Stored.zlib
                    (New Zlib [WithLevel 1]) [] [[x41]]) eq_refl).
Defined.

Lemma New_defers_algorithm_check_witness :
  algorithm (New 999 (map WithLevel [15])) = 999 /\
  Writer Stored.gzip Stored.zlib (New 999 (map WithLevel [15])) [] =
    Panicked errUnsupported /\
  Reader Stored.gzip Stored.zlib (New 999 (map WithLevel [15])) [] =
    Panicked errUnsupported.
Proof.
  destruct (New_defers_algorithm_check Stored.gzip Stored.zlib 999 [15] [] [])
    as (Halg & _ & Hlate).
  split; [exact Halg|]. apply Hlate; discriminate.
Defined.


(** * Further properties of the package *)

(** ** Options *)

Lemma WithLevel_level_ok (l : Z) (m : Middleware) :
  WithLevel l m =
  if level_ok l then {| algorithm := algorithm m; level := l |} else m.
Proof. reflexivity. Qed.

(** X1.  The options settle on one level: [New] with any list of
    [WithLevel] requests is the record of the algorithm given and the last
    request that lies in [1,9], or 6 when there is none.  Earlier requests
    and requests out of range leave no trace. *)
Theorem New_last_valid_level_wins (a : Algorithm) (lvls : list Z) :
  New a (map WithLevel lvls) =
  {| algorithm := a; level := effective_level lvls |}.
Proof.
  induction lvls as [|l lvls IH] using rev_ind; [reflexivity|].
  rewrite New_WithLevel_snoc, IH, WithLevel_level_ok.
  unfold effective_level. rewrite filter_app. cbn [filter algorithm].
  destruct (level_ok l).
  - now rewrite last_last.
  - now rewrite app_nil_r.
Qed.

(** ** Any order of calls on the write side *)

Section Sessions.
Context {Sink Source : Type}.
Variables gz zl : Codec Sink Source.

Lemma run_ops_gzip (ops : list WriteOp) : forall cw : CWriter gz,
  run_ops (OfGzipWriteCloser (zlib := zl) {| gzip_Writer := cw |}) ops =
  (OfGzipWriteCloser {| gzip_Writer := fst (run_ops cw ops) |},
   map (handed_on "failed to close gzip writer") (snd (run_ops cw ops))).
Proof.
  induction ops as [|[p|] ops IH]; intros cw; [reflexivity| |]; cbn [run_ops].
  - rewrite Write_gzip. destruct (Write cw p) as [cw1 [n err]]. cbn [fst snd].
    rewrite IH. now destruct (run_ops cw1 ops).
  - rewrite Close_gzip. destruct (Close cw) as [cw1 err]. cbn [fst snd].
    rewrite IH. now destruct (run_ops cw1 ops).
Qed.

Lemma run_ops_zlib (ops : list WriteOp) : forall cw : CWriter zl,
  run_ops (OfZlibWriteCloser (gzip := gz) {| zlib_Writer := cw |}) ops =
  (OfZlibWriteCloser {| zlib_Writer := fst (run_ops cw ops) |},
   map (handed_on "failed to close zlib writer") (snd (run_ops cw ops))).
Proof.
  induction ops as [|[p|] ops IH]; intros cw; [reflexivity| |]; cbn [run_ops].
  - rewrite Write_zlib. destruct (Write cw p) as [cw1 [n err]]. cbn [fst snd].
    rewrite IH. now destruct (run_ops cw1 ops).
  - rewrite Close_zlib. destruct (Close cw) as [cw1 err]. cbn [fst snd].
    rewrite IH. now destruct (run_ops cw1 ops).
Qed.

(** X2.  The write-side adapter keeps no state of its own and guards no
    call.  Whatever the order of [Write] and [Close] calls (also a [Write]
    after [Close], or a second [Close]), each call reaches the codec writer
    once: the sink ends as the codec writer leaves it under the same calls,
    every [Write] returns the codec's result, and every [Close] returns the
    codec's error wrapped with the adapter's message, or nil. *)
Theorem adapter_forwards_every_call (m : Middleware) (w : Sink) :
  (algorithm m = Gzip ->
   forall cw, NewWriterLevel gz w (level m) = inl cw ->
   exists a, Writer gz zl m w = Returned a /\
     forall ops,
       sink_of (fst (run_ops a ops)) = underlying gz (fst (run_ops cw ops)) /\
       snd (run_ops a ops) =
       map (handed_on "failed to close gzip writer") (snd (run_ops cw ops))) /\
  (algorithm m = Zlib ->
   forall cw, NewWriterLevel zl w (level m) = inl cw ->
   exists a, Writer gz zl m w = Returned a /\
     forall ops,
       sink_of (fst (run_ops a ops)) = underlying zl (fst (run_ops cw ops)) /\
       snd (run_ops a ops) =
       map (handed_on "failed to close zlib writer") (snd (run_ops cw ops))).
Proof.
  split; intros Halg cw Hnew.
  - rewrite Writer_Gzip, Hnew by assumption.
    eexists; split; [reflexivity|]. intros ops. now rewrite run_ops_gzip.
  - rewrite Writer_Zlib, Hnew by assumption.
    eexists; split; [reflexivity|]. intros ops. now rewrite run_ops_zlib.
Qed.

(** ** The read side *)

Lemma Close_reader_gzip (cr : CReader gz) :
  Close (OfGzipReader (zlib := zl) cr) =
  (OfGzipReader (fst (Close cr)), snd (Close cr)).
Proof.
  cbv [Close ReaderAdapter_Closer ReaderAdapter_Close CReader_Closer].
  now destruct (cr_Close gz cr).
Qed.

Lemma Close_reader_zlib (cr : CReader zl) :
  Close (OfZlibReadCloser (gzip := gz) {| ReadCloser := cr |}) =
  (OfZlibReadCloser {| ReadCloser := fst (Close cr) |}, snd (Close cr)).
Proof.
  cbv [Close ReaderAdapter_Closer ReaderAdapter_Close zlibReadCloser_Close
       CReader_Closer ReadCloser].
  now destruct (cr_Close zl cr).
Qed.

(** X3.  On the read side [Close] is passed through bare: after any reads,
    closing the handle [Reader] returned gives exactly the error (or nil)
    the codec reader's [Close] gives in that state.  Unlike the write side,
    nothing is wrapped around it. *)
Theorem reader_Close_not_wrapped (m : Middleware) (src : Source) :
  (algorithm m = Gzip ->
   forall cr, NewReader gz src = inl cr ->
   exists a, Reader gz zl m src = Returned a /\
     forall sizes,
       snd (Close (fst (read_seq a sizes))) =
       snd (Close (fst (read_seq cr sizes)))) /\
  (algorithm m = Zlib ->
   forall cr, NewReader zl src = inl cr ->
   exists a, Reader gz zl m src = Returned a /\
     forall sizes,
       snd (Close (fst (read_seq a sizes))) =
       snd (Close (fst (read_seq cr sizes)))).
Proof.
  split; intros Halg cr Hnew.
  - rewrite Reader_Gzip, Hnew by assumption.
    eexists; split; [reflexivity|]. intros sizes.
    rewrite read_seq_gzip. cbn [fst]. now rewrite Close_reader_gzip.
  - rewrite Reader_Zlib, Hnew by assumption.
    eexists; split; [reflexivity|]. intros sizes.
    rewrite read_seq_zlib. cbn [fst]. now rewrite Close_reader_zlib.
Qed.

(** X4.  [io.ReadAll] over the handle [Reader] returned is [io.ReadAll]
    over the codec's reader, for every bound on the number of reads: the
    same bytes, and the same error when the stream breaks off, with the
    bytes read before it kept. *)
Theorem ReadAll_through_adapter (m : Middleware) (src : Source) :
  (algorithm m = Gzip ->
   forall cr, NewReader gz src = inl cr ->
   exists a, Reader gz zl m src = Returned a /\
     forall fuel, ReadAll fuel a = ReadAll fuel cr) /\
  (algorithm m = Zlib ->
   forall cr, NewReader zl src = inl cr ->
   exists a, Reader gz zl m src = Returned a /\
     forall fuel, ReadAll fuel a = ReadAll fuel cr).
Proof.
  split; intros Halg cr Hnew.
  - rewrite Reader_Gzip, Hnew by assumption.
    eexists; split; [reflexivity|]. intros fuel.
    unfold ReadAll. apply ReadAll_from_gzip.
  - rewrite Reader_Zlib, Hnew by assumption.
    eexists; split; [reflexivity|]. intros fuel.
    unfold ReadAll. apply ReadAll_from_zlib.
Qed.

(** [Reader] looks at the algorithm only. *)
Lemma Reader_ignores_level (m m' : Middleware) (src : Source) :
  algorithm m = algorithm m' -> Reader gz zl m src = Reader gz zl m' src.
Proof. intros H. unfold Reader. now rewrite H. Qed.

End Sessions.

(** ** Streaming and configuration on the two sides *)

Section Streaming.
Variables gz zl : Codec Buffer Buffer.
Hypothesis gz_levels : AcceptsLevels gz.
Hypothesis zl_levels : AcceptsLevels zl.
Hypothesis gz_round_trips : RoundTrips gz.
Hypothesis zl_round_trips : RoundTrips zl.

(** X5.  With codec packages that accept the levels and read back what
    they wrote: for [Gzip] and [Zlib] and any list of [WithLevel] requests,
    in range or not, data written in any number of [Write] calls of any
    sizes and then closed reads back, through [Reader] of the same
    [Middleware], as the concatenation of the chunks; every [Write] takes
    its whole chunk, [Close] returns nil, and neither factory panics. *)
Theorem chunked_round_trip (a : Algorithm) (lvls : list Z) (chunks : list Buffer) :
  a = Gzip \/ a = Zlib ->
  exists wa,
    Writer gz zl (New a (map WithLevel lvls)) [] = Returned wa /\
    snd (write_seq wa chunks) = all_written chunks /\
    snd (Close (fst (write_seq wa chunks))) = None /\
    exists ra,
      Reader gz zl (New a (map WithLevel lvls)) (sink_of (finished wa chunks))
      = Returned ra /\
      exists fuel, ReadAll fuel ra = Some (List.concat chunks, None).
Proof.
  intros Ha.
  exact (round_trip_chunks gz_levels zl_levels gz_round_trips zl_round_trips
           lvls chunks Ha).
Qed.

(** X6.  The level is a matter of the writing side only.  What a
    [Middleware] wrote reads back through any [Middleware] of the same
    algorithm, whatever level its own options settled on. *)
Theorem reads_back_at_any_level
  (a : Algorithm) (wlvls rlvls : list Z) (chunks : list Buffer) :
  a = Gzip \/ a = Zlib ->
  exists wa,
    Writer gz zl (New a (map WithLevel wlvls)) [] = Returned wa /\
    exists ra,
      Reader gz zl (New a (map WithLevel rlvls)) (sink_of (finished wa chunks))
      = Returned ra /\
      exists fuel, ReadAll fuel ra = Some (List.concat chunks, None).
Proof.
  intros Ha.
  destruct (round_trip_chunks gz_levels zl_levels gz_round_trips zl_round_trips
              wlvls chunks Ha) as (wa & Hw & _ & _ & ra & Hr & Hall).
  exists wa. split; [assumption|]. exists ra. split; [|assumption].
  rewrite <- Hr. apply Reader_ignores_level.
  now rewrite !New_algorithm.
Qed.

End Streaming.

(** ** The further statements at concrete inputs *)

Lemma adapter_forwards_every_call_witness :
  (exists a,
     Writer Stored.gzip Stored.zlib (New Gzip []) [] = Returned a /\
     sink_of (fst (run_ops a [DoClose; DoWrite [x41]; DoClose])) = [x1f; x8b; x00] /\
     snd (run_ops a [DoClose; DoWrite [x41]; DoClose]) =
     [Closed None; Wrote 0 (Some Stored.ErrClosed); Closed None]) /\
  (exists a,
     Writer Stored.gzip Broken.codec (New Zlib []) [] = Returned a /\
     snd (run_ops a [DoClose; DoClose]) =
     [Closed (Some (withMessage Broken.ErrShortWrite "failed to close zlib writer"));
      Closed (Some (withMessage Broken.ErrShortWrite "failed to close zlib writer"))]).
Proof.
  split.
  - destruct (adapter_forwards_every_call Stored.gzip Stored.zlib (New Gzip []) [])
      as [Hg _].
    destruct (Hg eq_refl _ eq_refl) as (a & Ha & Hops).
    exists a. split; [exact Ha|].
    destruct (Hops [DoClose; DoWrite [x41]; DoClose]) as [Hsink Hres].
    split; [rewrite Hsink|rewrite Hres]; reflexivity.
  - destruct (adapter_forwards_every_call Stored.gzip Broken.codec (New Zlib []) [])
      as [_ Hz].
    destruct (Hz eq_refl _ eq_refl) as (a & Ha & Hops).
    exists a. split; [exact Ha|].
    destruct (Hops [DoClose; DoClose]) as [_ Hres].
    rewrite Hres. reflexivity.
Defined.

Lemma reader_Close_not_wrapped_witness :
  exists a,
    Reader Stored.gzip Stored.zlib (New Zlib []) [x78; x9c; x01; x41; x00] =
      Returned a /\
    snd (Close (fst (read_seq a [1%nat; 1%nat]))) = None.
Proof.
  destruct (reader_Close_not_wrapped Stored.gzip Stored.zlib (New Zlib [])
              [x78; x9c; x01; x41; x00]) as [_ Hz].
  destruct (Hz eq_refl _ eq_refl) as (a & Ha & Hclose).
  exists a. split; [exact Ha|]. rewrite Hclose. reflexivity.
Defined.

Lemma ReadAll_through_adapter_witness :
  exists a,
    Reader Stored.gzip Stored.zlib (New Gzip []) [x1f; x8b; x01; x41; x07] =
      Returned a /\
    ReadAll 1 a = Some ([x41], Some Stored.ErrCorrupt).
Proof.
  destruct (ReadAll_through_adapter Stored.gzip Stored.zlib (New Gzip [])
              [x1f; x8b; x01; x41; x07]) as [Hg _].
  destruct (Hg eq_refl _ eq_refl) as (a & Ha & Hall).
  exists a. split; [exact Ha|]. rewrite Hall. reflexivity.
Defined.

Lemma chunked_round_trip_witness :
  (Gzip = Gzip \/ Gzip = Zlib) /\
  exists wa,
    Writer Stored.gzip Stored.zlib (New Gzip (map WithLevel [0; 3])) [] =
      Returned wa /\
    snd (write_seq wa [[x41]; []; [x42; x43]]) =
      all_written [[x41]; []; [x42; x43]] /\
    snd (Close (fst (write_seq wa [[x41]; []; [x42; x43]]))) = None /\
    exists ra,
      Reader Stored.gzip Stored.zlib (New Gzip (map WithLevel [0; 3]))
        (sink_of (finished wa [[x41]; []; [x42; x43]])) = Returned ra /\
      exists fuel, ReadAll fuel ra = Some ([x41; x42; x43], None).
Proof.
  split; [left; reflexivity|].
  apply (@chunked_round_trip Stored.gzip Stored.zlib
           (@Stored_accepts_levels x1f x8b) (@Stored_accepts_levels x78 x9c)
           (@Stored_round_trips x1f x8b) (@Stored_round_trips x78 x9c)
           Gzip [0; 3] [[x41]; []; [x42; x43]]).
  left; reflexivity.
Defined.

Lemma reads_back_at_any_level_witness :
  (Zlib = Gzip \/ Zlib = Zlib) /\
  exists wa,
    Writer Stored.gzip Stored.zlib (New Zlib (map WithLevel [9])) [] =
      Returned wa /\
    exists ra,
      Reader Stored.gzip Stored.zlib (New Zlib (map WithLevel [1; 15]))
        (sink_of (finished wa [[x41; x42]])) = Returned ra /\
      exists fuel, ReadAll fuel ra = Some ([x41; x42], None).
Proof.
  split; [right; reflexivity|].
  apply (@reads_back_at_any_level Stored.gzip Stored.zlib
           (@Stored_accepts_levels x1f x8b) (@Stored_accepts_levels x78 x9c)
           (@Stored_round_trips x1f x8b) (@Stored_round_trips x78 x9c)
           Zlib [9] [1; 15] [[x41; x42]]).
  right; reflexivity.
Defined.

(** ** Options that [WithLevel] did not build

    The statements about [New] above range over lists of [WithLevel]
    values.  They do not extend to every value of type [Option]: the
    following lists are accepted by [New] like any other. *)

(** An option that overwrites the record leaves a level outside [1,9],
    whatever was requested before it. *)
Lemma New_level_invariant_counterexample :
  level (New Zlib [WithLevel 9; zeroOption]) = 0 /\
  ~ (1 <= level (New Zlib [WithLevel 9; zeroOption]) <= 9).
Proof. split; [reflexivity|]. cbn. lia. Qed.

(** The same option replaces the algorithm given to [New]: 999 is stored
    nowhere, and [Writer] and [Reader] go to the gzip codec instead of
    reporting an unsupported algorithm. *)
Lemma New_defers_algorithm_check_counterexample :
  algorithm (New 999 [zeroOption]) <> 999 /\
  Writer Stored.gzip Stored.zlib (New 999 [zeroOption]) [] <>
    Panicked errUnsupported /\
  Reader Stored.gzip Stored.zlib (New 999 [zeroOption]) [x1f; x8b; x00] <>
    Panicked errUnsupported.
Proof. repeat split; discriminate. Qed.

